(** * push_notifications/gcm.py: bulk dispatch, response handling and
      canonical-id reconciliation

    A shallow embedding of [src/push_notifications/gcm.py].  Python values
    are a small inductive type, dictionaries are finite maps, the device
    table is a list of rows, and every function that touches the table, the
    payload object or the network is a computation in a state-and-exception
    monad over a [World]. *)

From stdpp Require Import gmap strings list fin_maps pretty.
From Stdlib Require Import ZArith Lia Ascii.

Open Scope Z_scope.

Set Warnings "-register-all".

(** ** Exceptions and outcomes *)

(** The exceptions that can leave the functions of the module.  [GCMError]
    is the class declared at line 27; [NameError] and [ValueError] are the
    interpreter's own; [ExternalError] stands for whatever the collaborators
    (credential loading, token refresh, HTTP transport) raise. *)
Inductive exn : Type :=
  | GCMError (msg : string)
  | NameError (name : string)
  | ValueError (msg : string)
  | ExternalError (msg : string).

Inductive outcome (A : Type) : Type :=
  | Return (a : A)
  | Raise (e : exn).
Arguments Return {A} a.
Arguments Raise {A} e.

(** ** Python values *)

(** The scalar values a payload entry or a keyword option can hold.
    Floating point numbers are left out. *)
Inductive pyval : Type :=
  | VNone
  | VBool (b : bool)
  | VInt (z : Z)
  | VStr (s : string).

(** Truth value of a scalar, as tested by [if v:]. *)
Definition truthy (v : pyval) : bool :=
  match v with
  | VNone => false
  | VBool b => b
  | VInt z => negb (z =? 0)
  | VStr s => negb (String.eqb s "")
  end.

(** [isinstance(v, bool)]. *)
Definition isinstance_bool (v : pyval) : bool :=
  match v with
  | VBool _ => true
  | _ => false
  end.

(** [str(v)]. *)
Definition str (v : pyval) : string :=
  match v with
  | VNone => "None"
  | VBool true => "True"
  | VBool false => "False"
  | VInt z => pretty z
  | VStr s => s
  end.

Definition is_str (v : pyval) : bool :=
  match v with
  | VStr _ => true
  | _ => false
  end.

(** A dictionary with string keys and scalar values. *)
Abbreviation pydict := (gmap string pyval).

(** [d.get(k)]: the value, or [None] when the key is absent. *)
Definition dict_get (d : pydict) (k : string) : pyval :=
  default VNone (d !! k).

(** ** Strings *)

(** [s.startswith(p)]. *)
Definition startswith (s p : string) : bool := String.prefix p s.

(** [s.split(sep)] for a one-character separator: the pieces between the
    occurrences of [sep]; there is always at least one piece. *)
Fixpoint split (sep : ascii) (s : string) : list string :=
  match s with
  | EmptyString => [EmptyString]
  | String c rest =>
      if Ascii.eqb c sep then EmptyString :: split sep rest
      else match split sep rest with
           | piece :: pieces => String c piece :: pieces
           | [] => [String c EmptyString]
           end
  end.

Definition newline : ascii := Ascii.ascii_of_nat 10.
Definition equals_sign : ascii := "="%char.

(** [xs[-1]] on a list of strings that is known to be non-empty. *)
Definition last_piece (xs : list string) : string := List.last xs EmptyString.

(** ** [range] and slices *)

(** Number of elements of [range(start, stop, step)] for [step <> 0]. *)
Definition range_len (start stop step : Z) : Z :=
  if 0 <? step then
    if start <? stop then (stop - start - 1) / step + 1 else 0
  else
    if stop <? start then (start - stop - 1) / (- step) + 1 else 0.

(** [range(start, stop, step)]; a zero step raises [ValueError]. *)
Definition range (start stop step : Z) : outcome (list Z) :=
  if step =? 0 then Raise (ValueError "range() arg 3 must not be zero")
  else Return (List.map (fun k => start + Z.of_nat k * step)
                        (seq 0 (Z.to_nat (range_len start stop step)))).

(** A slice bound is counted from the end when negative and clamped to
    the list. *)
Definition slice_index (len i : Z) : Z :=
  if i <? 0 then Z.max 0 (i + len) else Z.min i len.

(** [l[i:j]]. *)
Definition slice {A : Type} (l : list A) (i j : Z) : list A :=
  let n := Z.of_nat (length l) in
  let lo := slice_index n i in
  let hi := slice_index n j in
  take (Z.to_nat (hi - lo)) (drop (Z.to_nat lo) l).

(** [_chunks(l, n)], lines 40-45.  The generator is consumed by a [for]
    loop at its only call site, so it is given by the list of the chunks
    it yields; the [ValueError] of a zero step surfaces when the loop asks
    for the first chunk. *)
Definition _chunks {A : Type} (l : list A) (n : Z) : outcome (list (list A)) :=
  match range 0 (Z.of_nat (length l)) n with
  | Raise e => Raise e
  | Return starts => Return (List.map (fun i => slice l i (i + n)) starts)
  end.

(** Ceiling of [a / b] for [b > 0]. *)
Definition ceil_div (a b : Z) : Z := (a + b - 1) / b.

(** ** Objects, requests and the world *)

(** Addresses of mutable objects. *)
Definition loc : Type := nat.

(** Python objects as they occur in the request object and in return
    values: a scalar, a reference to a dictionary that lives in the heap
    (the caller's payload), a dictionary literal, a list. *)
Inductive pyobj : Type :=
  | PVal (v : pyval)
  | PRef (l : loc)
  | PDict (fields : list (string * pyobj))
  | PList (items : list pyobj).

Inductive json : Type :=
  | JNull
  | JBool (b : bool)
  | JNum (z : Z)
  | JStr (s : string)
  | JObj (members : list (string * json))
  | JArr (elements : list json).

(** Modelled from the spec: the model class [GCMDevice] of
    push_notifications/models.py, which is not among the sources.  The
    spec gives a device registration record the attributes
    [registration_id] (a string) and [active] (a boolean); the table is the
    list of its rows, and a queryset is selected by a predicate on rows. *)
Record GCMDevice : Type := mkDevice {
  registration_id : string;
  active : bool;
}.

Record Request : Type := mkRequest {
  url : string;
  body : json;
  headers : list (string * string);
}.

(** What an observer of one run can see: the requests that reached the
    transport and the calls of the reconciliation handler, in order. *)
Inductive event : Type :=
  | EvRequest (r : Request)
  | EvCanonical (canonical_id current_id : string).

Record World : Type := mkWorld {
  devices : list GCMDevice;
  heap : gmap loc pydict;
  trace : list event;
}.

Definition set_devices (ds : list GCMDevice) (w : World) : World :=
  mkWorld ds (heap w) (trace w).
Definition set_heap (h : gmap loc pydict) (w : World) : World :=
  mkWorld (devices w) h (trace w).
Definition log_event (e : event) (w : World) : World :=
  mkWorld (devices w) (heap w) (trace w ++ [e]).

(** The collaborators outside the module.  Each may answer differently as
    the run proceeds, so each sees the trace so far. *)
Record Env : Type := mkEnv {
  (** [SETTINGS.get("GCM_MAX_RECIPIENTS")] *)
  GCM_MAX_RECIPIENTS : Z;
  (** service-account credentials, refreshed: the bearer token *)
  refresh_token : list event -> outcome string;
  (** the [project_id] field of the credentials file *)
  read_project_id : list event -> outcome string;
  (** [urlopen(request).read().decode("utf-8")] *)
  urlopen_read : list event -> Request -> outcome string;
}.

(** ** The monad of the module's functions *)

(** A computation runs in a world and ends in a value or an exception;
    what it did to the world stays done in both cases. *)
Definition M (A : Type) : Type := World -> outcome A * World.

#[global] Instance M_ret : MRet M := fun A a w => (Return a, w).

#[global] Instance M_bind : MBind M := fun A B f c w =>
  match c w with
  | (Return a, w') => f a w'
  | (Raise e, w') => (Raise e, w')
  end.

Definition raise {A : Type} (e : exn) : M A := fun w => (Raise e, w).

Definition lift {A : Type} (o : outcome A) : M A := fun w => (o, w).

(** Entering a function whose calls are observed. *)
Definition called (e : event) : M unit := fun w => (Return tt, log_event e w).

(** [for x in xs: body(x)] *)
Fixpoint for_each {A : Type} (xs : list A) (body : A -> M unit) : M unit :=
  match xs with
  | [] => mret tt
  | x :: rest => body x ;; for_each rest body
  end.

(** [ret = []; for x in xs: ret.append(body(x))] *)
Fixpoint collect {A B : Type} (xs : list A) (body : A -> M B) : M (list B) :=
  match xs with
  | [] => mret []
  | x :: rest => r ← body x; rs ← collect rest body; mret (r :: rs)
  end.

(** Reading and writing the dictionary at an address.  A Python name
    always denotes a live object, so worlds in which the address is not
    allocated do not arise; reading one there gives the empty dictionary. *)
Definition deref (h : gmap loc pydict) (l : loc) : pydict := default ∅ (h !! l).

Definition load (l : loc) : M pydict := fun w => (Return (deref (heap w) l), w).

Definition store (l : loc) (d : pydict) : M unit :=
  fun w => (Return tt, set_heap (<[l := d]> (heap w)) w).

(** [GCMDevice.objects.filter(...).exists()] *)
Definition filter_exists (selected : GCMDevice -> bool) : M bool :=
  fun w => (Return (existsb selected (devices w)), w).

(** [GCMDevice.objects.filter(...).update(...)] *)
Definition filter_update (selected : GCMDevice -> bool)
    (change : GCMDevice -> GCMDevice) : M unit :=
  fun w => (Return tt,
            set_devices
              ((fun d => if selected d then change d else d) <$> devices w)
              w).

(** ** JSON serialisation *)

Definition json_of_val (v : pyval) : json :=
  match v with
  | VNone => JNull
  | VBool b => JBool b
  | VInt z => JNum z
  | VStr s => JStr s
  end.

(** [json.dumps]: a reference is followed to what the heap holds at the
    time of the call. *)
Fixpoint dumps_obj (h : gmap loc pydict) (o : pyobj) : json :=
  match o with
  | PVal v => json_of_val v
  | PRef l =>
      JObj (List.map (fun kv => (fst kv, json_of_val (snd kv)))
                     (map_to_list (deref h l)))
  | PDict fields =>
      JObj (List.map (fun kv => (fst kv, dumps_obj h (snd kv))) fields)
  | PList items => JArr (List.map (dumps_obj h) items)
  end.

Definition json_dumps (o : gmap string pyobj) : M json :=
  fun w => (Return (JObj (List.map (fun kv => (fst kv, dumps_obj (heap w) (snd kv)))
                                   (map_to_list o))), w).

(** ** The functions of gcm.py *)

(** Lines 71-86 of [_gcm_send_plain]: the request object.  [d] is what the
    payload holds when the function is entered; the ["data"] entry is the
    payload object itself, not a copy.  The loop over [kwargs.items()]
    visits every key once, so the order of the visit does not matter. *)
Definition make_msg_objects (registration_id : string) (data : loc)
    (d : pydict) (kwargs : pydict) : gmap string pyobj :=
  let msg_objects : gmap string pyobj :=
    {[ "message" :=
         PDict [ ("token", PVal (VStr registration_id));
                 ("notification",
                   PDict [ ("title", PVal (dict_get d "title"));
                           ("body", PVal (dict_get d "message")) ]);
                 ("data", PRef data) ] ]} in
  map_fold
    (fun k v msg_objects =>
       if truthy v then
         let v := if isinstance_bool v then VStr "1" else v in
         <[k := PVal v]> msg_objects
       else msg_objects)
    msg_objects kwargs.

(** Lines 88-89: [for k, v in data.items(): data[k] = str(v)].  The
    assignments go to the dictionary that is being iterated; no key is
    added, so the iteration is not disturbed. *)
Definition stringify_items (d : pydict) : pydict :=
  map_fold (fun k v data => <[k := VStr (str v)]> data) d d.

Section Gateway.
Context (env : Env).

(** [_get_access_token()], lines 30-37 *)
Definition _get_access_token : M string :=
  fun w => (refresh_token env (trace w), w).

(** Lines 55-56 and the subscript of line 58: the credentials file is
    opened and parsed and its [project_id] is taken. *)
Definition load_credentials_project_id : M string :=
  fun w => (read_project_id env (trace w), w).

(** Line 60: the request goes out and the decoded response body comes
    back, or the transport raises. *)
Definition urlopen (request : Request) : M string :=
  fun w => (urlopen_read env (trace w) request, log_event (EvRequest request) w).

(** [_gcm_send(data)], lines 48-60 *)
Definition _gcm_send (data : json) : M string :=
  token ← _get_access_token;
  let headers :=
    [ ("Content-Type", "application/json; UTF-8");
      ("Authorization", "Bearer " +:+ token) ] in
  project_id ← load_credentials_project_id;
  let url :=
    "https://fcm.googleapis.com/v1/projects/" +:+ project_id +:+ "/messages:send" in
  urlopen (mkRequest url data headers).

(** [_gcm_handle_canonical_id(canonical_id, current_id)], lines 123-130 *)
Definition _gcm_handle_canonical_id (canonical_id current_id : string) : M unit :=
  called (EvCanonical canonical_id current_id) ;;
  found ← filter_exists
            (fun dev => String.eqb (registration_id dev) canonical_id
                        && Bool.eqb (active dev) true);
  if (found : bool) then
    filter_update (fun dev => String.eqb (registration_id dev) current_id)
                  (fun dev => mkDevice (registration_id dev) false)
  else
    filter_update (fun dev => String.eqb (registration_id dev) current_id)
                  (fun dev => mkDevice canonical_id (active dev)).

(** Lines 71-93 of [_gcm_send_plain]: build the request object, turn the
    payload's values into strings, serialise, send. *)
Definition gcm_request (registration_id : string) (data : loc)
    (kwargs : pydict) : M string :=
  d ← load data;
  let msg_objects := make_msg_objects registration_id data d kwargs in
  d ← load data;
  store data (stringify_items d) ;;
  data ← json_dumps msg_objects;
  _gcm_send data.

(** Lines 100-115 of [_gcm_send_plain]: what is done with the response.
    At line 109 the name [values] is read; it is assigned nowhere in the
    function or the module and is no builtin, so the read raises
    [NameError] and lines 110-111 are not reached. *)
Definition gcm_response (registration_id : string) (result : string) : M string :=
  if startswith result "id" then
    let lines := split newline result in
    (if bool_decide (1 < length lines)%nat
        && startswith (nth 1 lines EmptyString) "registration_id"
     then
       let new_id := last_piece (split equals_sign (nth 1 lines EmptyString)) in
       _gcm_handle_canonical_id new_id registration_id
     else (mret tt : M unit)) ;;
    mret result
  else if startswith result "Error=" then
    if String.eqb result "Error=NotRegistered"
       || String.eqb result "Error=InvalidRegistration"
    then raise (NameError "values")
    else raise (GCMError result)
  else mret result.

(** [_gcm_send_plain(registration_id, data, **kwargs)], lines 63-115 *)
Definition _gcm_send_plain (registration_id : string) (data : loc)
    (kwargs : pydict) : M string :=
  result ← gcm_request registration_id data kwargs;
  gcm_response registration_id result.

(** [_gcm_send_json(registration_ids, data, **kwargs)], lines 118-120.
    The value of each [_gcm_send_plain] call is dropped and the function
    has no [return], so it returns [None]. *)
Definition _gcm_send_json (registration_ids : list string) (data : loc)
    (kwargs : pydict) : M pyobj :=
  for_each registration_ids
    (fun registration_id =>
       _gcm_send_plain registration_id data kwargs ;; mret tt) ;;
  mret (PVal VNone).

(** [gcm_send_message(registration_id, data, **kwargs)], lines 133-144 *)
Definition gcm_send_message (registration_id : string) (data : loc)
    (kwargs : pydict) : M string :=
  _gcm_send_plain registration_id data kwargs.

(** [gcm_send_bulk_message(registration_ids, data, **kwargs)],
    lines 147-166 *)
Definition gcm_send_bulk_message (registration_ids : list string) (data : loc)
    (kwargs : pydict) : M pyobj :=
  let max_recipients := GCM_MAX_RECIPIENTS env in
  if max_recipients <? Z.of_nat (length registration_ids) then
    chunks ← lift (_chunks registration_ids max_recipients);
    ret ← collect chunks (fun chunk => _gcm_send_json chunk data kwargs);
    mret (PList ret)
  else
    _gcm_send_json registration_ids data kwargs.

End Gateway.

(** ** Vocabulary of the statements *)

(** The table has an active row for [id]. *)
Definition active_record_exists (id : string) (table : list GCMDevice) : Prop :=
  exists dev, dev ∈ table /\ registration_id dev = id /\ active dev = true.

(** The response's second line, when it has one. *)
Definition second_line (result : string) : option string :=
  split newline result !! 1%nat.

(** The value the loop of lines 82-86 stores for a truthy option. *)
Definition merged_value (v : pyval) : pyval :=
  if isinstance_bool v then VStr "1" else v.

(** ** Concrete inputs *)

(** A gateway whose authentication succeeds and that answers every request
    with the same body. *)
Definition gateway_replying (response : string) (max_recipients : Z) : Env :=
  mkEnv max_recipients
        (fun _ => Return "token")
        (fun _ => Return "project")
        (fun _ _ => Return response).

(** Two active devices and one payload object, at address 0, with a title
    that is a number. *)
Definition sample_world : World :=
  mkWorld [mkDevice "X" true; mkDevice "Y" true]
          {[ 0%nat := {[ "title" := VInt 5; "message" := VStr "hi" ]} ]}
          [].

Definition canonical_response : string :=
  "id=123" +:+ String newline "registration_id=456".

(** A gateway that answers ["id=1"] to the first [n] requests of a run and
    [failure] to every later one. *)
Definition gateway_failing_after (n : nat) (failure : string)
    (max_recipients : Z) : Env :=
  mkEnv max_recipients
        (fun _ => Return "token")
        (fun _ => Return "project")
        (fun sent _ => if (length sent <? n)%nat then Return "id=1"
                       else Return failure).

(** The loop of [_gcm_send_json], lines 119-120. *)
Definition send_each (env : Env) (registration_ids : list string) (data : loc)
    (kwargs : pydict) : M unit :=
  for_each registration_ids
    (fun registration_id => _gcm_send_plain env registration_id data kwargs ;; mret tt).

(** ** Observations on traces, strings and request bodies *)



(** [c in s] for a character [c]. *)
Fixpoint contains (c : ascii) (s : string) : bool :=
  match s with
  | EmptyString => false
  | String c' rest => Ascii.eqb c' c || contains c rest
  end.

(** The value under a key in a list of members. *)
Fixpoint assoc {B : Type} (k : string) (members : list (string * B)) : option B :=
  match members with
  | [] => None
  | (k', v) :: rest => if String.eqb k k' then Some v else assoc k rest
  end.

(** The member of a JSON object under a key. *)
Definition json_get (k : string) (j : json) : option json :=
  match j with
  | JObj members => assoc k members
  | _ => None
  end.



(** ** Facts about [range], slices and chunks *)

Section Chunking.
Context {A : Type}.
Implicit Types (l : list A) (m c k : nat).

Lemma ceil_div_bounds (a b : Z) :
  0 <= a -> 0 < b -> (ceil_div a b - 1) * b < a <= ceil_div a b * b.
Proof.
  intros Ha Hb. unfold ceil_div.
  pose proof (Z.div_mod (a + b - 1) b ltac:(lia)) as Hdm.
  pose proof (Z.mod_pos_bound (a + b - 1) b Hb) as Hmod.
  nia.
Qed.

Lemma range_len_from_zero (L M : Z) :
  0 <= L -> 0 < M -> range_len 0 L M = ceil_div L M.
Proof.
  intros HL HM. unfold range_len, ceil_div.
  destruct (Z.ltb_spec 0 M) as [_|]; [|lia].
  destruct (Z.ltb_spec 0 L) as [Hpos|Hz].
  - replace (L - 0 - 1) with (L - 1) by lia.
    replace (L + M - 1) with (L - 1 + 1 * M) by lia.
    rewrite Z.div_add by lia. reflexivity.
  - assert (L = 0) as -> by lia.
    symmetry. apply Z.div_small. lia.
Qed.

Lemma slice_forward l (i n : Z) :
  0 <= i -> 0 <= n ->
  slice l i (i + n) = take (Z.to_nat n) (drop (Z.to_nat i) l).
Proof.
  intros Hi Hn. unfold slice, slice_index.
  destruct (Z.ltb_spec i 0) as [|_]; [lia|].
  destruct (Z.ltb_spec (i + n) 0) as [|_]; [lia|].
  set (L := Z.of_nat (length l)).
  destruct (Z.le_gt_cases L i) as [Hout|Hin].
  - rewrite !Z.min_r by lia. rewrite Z.sub_diag. simpl.
    rewrite (drop_ge l (Z.to_nat i)) by (subst L; lia).
    by rewrite take_nil.
  - rewrite (Z.min_l i L) by lia.
    destruct (Z.le_gt_cases (i + n) L) as [Hfit|Hover].
    + rewrite Z.min_l by lia. f_equal. lia.
    + rewrite Z.min_r by lia.
      rewrite !take_ge; [done| |]; rewrite length_drop; subst L; lia.
Qed.

(** Cutting [l] into [c] consecutive pieces of [m] elements loses
    nothing when [c * m] reaches the end of [l]. *)
Lemma concat_pieces m c l :
  (length l <= c * m)%nat ->
  concat (List.map (fun k => take m (drop (k * m) l)) (seq 0 c)) = l.
Proof.
  revert l. induction c as [|c IH]; intros l Hlen.
  - destruct l; [done | simpl in Hlen; lia].
  - change (seq 0 (S c)) with (0%nat :: seq 1 c).
    rewrite <- seq_shift. cbn [List.map concat].
    rewrite List.map_map, Nat.mul_0_l, drop_0.
    rewrite (List.map_ext _ (fun k => take m (drop (k * m) (drop m l)))).
    + rewrite IH; [apply take_drop|]. rewrite length_drop. lia.
    + intros k. by rewrite drop_drop.
Qed.

Lemma chunks_positive l (M : Z) :
  0 < M ->
  _chunks l M =
    Return (List.map (fun k => take (Z.to_nat M) (drop (k * Z.to_nat M) l))
                     (seq 0 (Z.to_nat (ceil_div (Z.of_nat (length l)) M)))).
Proof.
  intros HM. unfold _chunks, range.
  destruct (Z.eqb_spec M 0) as [|_]; [lia|].
  rewrite range_len_from_zero by lia.
  rewrite List.map_map. f_equal. apply List.map_ext. intros k.
  rewrite slice_forward by lia. do 2 f_equal. lia.
Qed.

Lemma ceil_div_nonneg (a b : Z) : 0 <= a -> 0 < b -> 0 <= ceil_div a b.
Proof. intros Ha Hb. unfold ceil_div. apply Z.div_pos; lia. Qed.

(** The chunks of a positive size: how many there are and what they
    add up to. *)
Lemma chunks_cover l (M : Z) :
  0 < M ->
  exists cs : list (list A),
    _chunks l M = Return cs
    /\ Z.of_nat (length cs) = ceil_div (Z.of_nat (length l)) M
    /\ concat cs = l.
Proof.
  intros HM. eexists. split; [by apply chunks_positive|].
  pose proof (ceil_div_nonneg (Z.of_nat (length l)) M ltac:(lia) HM) as Hc.
  split.
  - rewrite length_map, length_seq. lia.
  - apply concat_pieces.
    pose proof (ceil_div_bounds (Z.of_nat (length l)) M ltac:(lia) HM) as [_ Hub].
    nia.
Qed.

End Chunking.

(** C1.  For a list of length [L] and a maximum chunk size [M > 0],
    [_chunks] yields [ceil(L / M)] chunks, none longer than [M], whose
    concatenation in order is the list itself: every identifier lands in
    exactly one chunk, in its original position, duplicates included. *)
Theorem chunks_partition {A : Type} (l : list A) (M : Z) :
  0 < M ->
  exists cs : list (list A),
    _chunks l M = Return cs
    /\ Z.of_nat (length cs) = ceil_div (Z.of_nat (length l)) M
    /\ (Z.of_nat (length cs) - 1) * M < Z.of_nat (length l)
         <= Z.of_nat (length cs) * M
    /\ Forall (fun c => Z.of_nat (length c) <= M) cs
    /\ concat cs = l.
Proof.
  intros HM. eexists. split; [by apply chunks_positive|].
  set (L := Z.of_nat (length l)).
  assert (0 <= ceil_div L M) as Hc.
  { unfold ceil_div. apply Z.div_pos; subst L; lia. }
  assert (Z.of_nat (length (List.map
            (fun k => take (Z.to_nat M) (drop (k * Z.to_nat M) l))
            (seq 0 (Z.to_nat (ceil_div L M))))) = ceil_div L M) as Hlen.
  { rewrite length_map, length_seq. lia. }
  split; [exact Hlen|]. split.
  { rewrite Hlen. apply ceil_div_bounds; subst L; lia. }
  split.
  - apply Forall_forall. intros c Hin.
    apply list_elem_of_In, in_map_iff in Hin as (k & <- & _).
    rewrite length_take. lia.
  - apply concat_pieces.
    pose proof (ceil_div_bounds L M ltac:(subst L; lia) HM) as [_ Hub].
    subst L. nia.
Qed.

Lemma chunks_partition_witness :
  exists cs : list (list string),
    _chunks ["a"; "b"; "c"; "b"; "e"]%string 2 = Return cs
    /\ Z.of_nat (length cs) = ceil_div 5 2
    /\ (Z.of_nat (length cs) - 1) * 2 < 5 <= Z.of_nat (length cs) * 2
    /\ Forall (fun c => Z.of_nat (length c) <= 2) cs
    /\ concat cs = ["a"; "b"; "c"; "b"; "e"]%string.
Proof. apply (chunks_partition ["a"; "b"; "c"; "b"; "e"]%string 2). lia. Defined.

(** ** The monad *)

Section MonadFacts.
Context {A B : Type}.
Implicit Types (c : M A) (f : A -> M B) (w : World).

Lemma bind_return c f w a w' :
  c w = (Return a, w') -> (c ≫= f) w = f a w'.
Proof. intros H. unfold mbind, M_bind. by rewrite H. Qed.

Lemma bind_raise c f w e w' :
  c w = (Raise e, w') -> (c ≫= f) w = (Raise e, w').
Proof. intros H. unfold mbind, M_bind. by rewrite H. Qed.

End MonadFacts.

(** ** Strings *)

Lemma startswith_cons (c : ascii) (s p : string) :
  startswith (String c s) (String c p) = startswith s p.
Proof. unfold startswith. cbn [String.prefix]. by destruct (ascii_dec c c). Qed.

(** A response that begins with ["Error="] does not begin with ["id"]. *)
Lemma error_is_not_id (result : string) :
  startswith result "Error=" = true -> startswith result "id" = false.
Proof.
  unfold startswith. destruct result as [|c rest]; cbn [String.prefix]; [done|].
  destruct (ascii_dec "E" c) as [<-|]; [|done]. intros _.
  by destruct (ascii_dec "i" "E").
Qed.

(** ** Canonical-id reconciliation *)

Lemma active_record_existsb (id : string) (table : list GCMDevice) :
  existsb (fun dev => String.eqb (registration_id dev) id
                      && Bool.eqb (active dev) true) table = true
  <-> active_record_exists id table.
Proof.
  unfold active_record_exists. rewrite existsb_exists. split.
  - intros (dev & Hin & Hsel). exists dev.
    apply andb_true_iff in Hsel as [Hid Hact].
    apply String.eqb_eq in Hid. apply Bool.eqb_prop in Hact.
    by rewrite list_elem_of_In.
  - intros (dev & Hin & Hid & Hact). exists dev.
    rewrite <- list_elem_of_In. split; [done|].
    rewrite Hid, Hact, String.eqb_refl. done.
Qed.

Lemma handle_canonical_id_run (canonical_id current_id : string) (w : World) :
  _gcm_handle_canonical_id canonical_id current_id w =
    (Return tt,
     mkWorld
       ((fun dev =>
           if String.eqb (registration_id dev) current_id then
             if existsb (fun dev => String.eqb (registration_id dev) canonical_id
                                    && Bool.eqb (active dev) true) (devices w)
             then mkDevice (registration_id dev) false
             else mkDevice canonical_id (active dev)
           else dev) <$> devices w)
       (heap w)
       (trace w ++ [EvCanonical canonical_id current_id])).
Proof.
  unfold _gcm_handle_canonical_id, called, filter_exists, filter_update.
  unfold mbind, M_bind. simpl.
  by destruct (existsb _ (devices w)).
Qed.

(** C5.  Reconciliation with new identifier [N] and used identifier [X]
    returns normally and keeps every row of the table in its place.  When
    an active row for [N] exists, each row for [X] is made inactive and
    keeps its registration id; when none exists, each row for [X] gets
    [N] as its registration id and keeps its [active] flag.  All other rows
    are left as they were. *)
Theorem canonical_id_reconciliation (N X : string) (w : World) :
  exists w',
    _gcm_handle_canonical_id N X w = (Return tt, w')
    /\ heap w' = heap w
    /\ length (devices w') = length (devices w)
    /\ (active_record_exists N (devices w) ->
        forall (i : nat) (dev : GCMDevice),
          devices w !! i = Some dev ->
          devices w' !! i =
            Some (if decide (registration_id dev = X)
                  then mkDevice (registration_id dev) false
                  else dev))
    /\ (~ active_record_exists N (devices w) ->
        forall (i : nat) (dev : GCMDevice),
          devices w !! i = Some dev ->
          devices w' !! i =
            Some (if decide (registration_id dev = X)
                  then mkDevice N (active dev)
                  else dev)).
Proof.
  eexists. split; [apply handle_canonical_id_run|]. simpl.
  split; [done|]. split; [by rewrite length_fmap|].
  split.
  - intros Hex%active_record_existsb i dev Hi.
    rewrite list_lookup_fmap, Hi, Hex. simpl.
    destruct (String.eqb_spec (registration_id dev) X);
      by destruct (decide (registration_id dev = X)).
  - intros Hno i dev Hi.
    rewrite list_lookup_fmap, Hi. simpl.
    destruct (existsb _ (devices w)) eqn:Hex.
    { by apply active_record_existsb in Hex. }
    destruct (String.eqb_spec (registration_id dev) X);
      by destruct (decide (registration_id dev = X)).
Qed.

Lemma canonical_id_reconciliation_witness :
  let taken := mkWorld [mkDevice "X" true; mkDevice "N" true; mkDevice "Z" false] ∅ [] in
  let free := mkWorld [mkDevice "X" true; mkDevice "N" false; mkDevice "Z" false] ∅ [] in
  (exists w', _gcm_handle_canonical_id "N" "X" taken = (Return tt, w')
              /\ devices w' !! 0%nat = Some (mkDevice "X" false))
  /\ (exists w', _gcm_handle_canonical_id "N" "X" free = (Return tt, w')
                 /\ devices w' !! 0%nat = Some (mkDevice "N" true)).
Proof.
  intros taken free. split.
  - destruct (canonical_id_reconciliation "N" "X" taken)
      as (w' & Hrun & _ & _ & Hdeact & _).
    exists w'. split; [exact Hrun|].
    apply (Hdeact ltac:(exists (mkDevice "N" true); repeat split; set_solver)
                  0%nat (mkDevice "X" true) eq_refl).
  - destruct (canonical_id_reconciliation "N" "X" free)
      as (w' & Hrun & _ & _ & _ & Hmove).
    exists w'. split; [exact Hrun|].
    apply (Hmove ltac:(intros Hex%active_record_existsb; discriminate Hex)
                 0%nat (mkDevice "X" true) eq_refl).
Defined.

(** ** One send: the request half *)

Section Send.
Context (env : Env).
Implicit Types (X : string) (data : loc) (kw : pydict) (w : World).

(** Whatever the collaborators do, the request half leaves the table
    alone and leaves the payload with its values turned into strings. *)
Lemma gcm_request_frame X data kw w :
  let w1 := snd (gcm_request env X data kw w) in
  devices w1 = devices w
  /\ heap w1 = <[data := stringify_items (deref (heap w) data)]> (heap w).
Proof.
  unfold gcm_request, load, store, json_dumps, _gcm_send, _get_access_token,
    load_credentials_project_id, urlopen.
  unfold mbind, M_bind. simpl.
  destruct (refresh_token env (trace w)); simpl; [|done].
  by destruct (read_project_id env (trace w)).
Qed.

(** When the request half returns, exactly one request went out and the
    returned string is the transport's answer to it. *)
Lemma gcm_request_returns X data kw w result w1 :
  gcm_request env X data kw w = (Return result, w1) ->
  exists request,
    urlopen_read env (trace w) request = Return result
    /\ trace w1 = trace w ++ [EvRequest request].
Proof.
  unfold gcm_request, load, store, json_dumps, _gcm_send, _get_access_token,
    load_credentials_project_id, urlopen.
  unfold mbind, M_bind. simpl.
  destruct (refresh_token env (trace w)); simpl; [|done].
  destruct (read_project_id env (trace w)); simpl; [|done].
  match goal with |- context [urlopen_read env ?t ?r] =>
    destruct (urlopen_read env t r) eqn:Hans end; [|done].
  intros [= <- <-]. eauto.
Qed.

Lemma send_plain_after_request X data kw w result w1 :
  gcm_request env X data kw w = (Return result, w1) ->
  _gcm_send_plain env X data kw w = gcm_response X result w1.
Proof. intros H. unfold _gcm_send_plain. by apply bind_return. Qed.

Lemma send_plain_request_raises X data kw w e w1 :
  gcm_request env X data kw w = (Raise e, w1) ->
  _gcm_send_plain env X data kw w = (Raise e, w1).
Proof. intros H. unfold _gcm_send_plain. by apply bind_raise. Qed.

End Send.

(** ** One send: the response half *)

(** The response half never touches the heap. *)
Lemma gcm_response_heap (X result : string) (w : World) :
  heap (snd (gcm_response X result w)) = heap w.
Proof.
  unfold gcm_response.
  destruct (startswith result "id").
  - destruct (_ && _).
    + unfold mbind, M_bind. by rewrite handle_canonical_id_run.
    + done.
  - destruct (startswith result "Error="); [|done].
    by destruct (_ || _).
Qed.

(** A recoverable error reaches line 109 and stops there: the unbound name
    raises before any row is touched. *)
Lemma recoverable_error_run (X result : string) (w : World) :
  result = "Error=NotRegistered" \/ result = "Error=InvalidRegistration" ->
  gcm_response X result w = (Raise (NameError "values"), w).
Proof. by intros [-> | ->]. Qed.

(** C3, at a concrete send.  Identifier ["X"] has an active row and the
    gateway answers ["Error=NotRegistered"].  The send does not return the
    response: it raises [NameError] for the name [values], and the row for
    ["X"] is still active afterwards.  The same happens for
    ["Error=InvalidRegistration"]. *)
Theorem not_registered_raises_NameError :
  let run response :=
    _gcm_send_plain (gateway_replying response 1000) "X" 0%nat ∅ sample_world in
  fst (run "Error=NotRegistered") = Raise (NameError "values")
  /\ devices (snd (run "Error=NotRegistered")) = devices sample_world
  /\ mkDevice "X" true ∈ devices (snd (run "Error=NotRegistered"))
  /\ fst (run "Error=InvalidRegistration") = Raise (NameError "values")
  /\ devices (snd (run "Error=InvalidRegistration")) = devices sample_world.
Proof.
  intros run. subst run. cbv beta.
  split; [by vm_compute|]. split; [by vm_compute|].
  split; [vm_compute; apply list_elem_of_here|].
  split; by vm_compute.
Qed.

(** C4.  When the gateway's answer begins with ["Error="] and is neither
    ["Error=NotRegistered"] nor ["Error=InvalidRegistration"], the send
    raises [GCMError] carrying the answer itself; nothing is returned. *)
Theorem other_error_raises_GCMError (env : Env) (X : string) (data : loc)
    (kw : pydict) (w w1 : World) (result : string) :
  gcm_request env X data kw w = (Return result, w1) ->
  startswith result "Error=" = true ->
  result <> "Error=NotRegistered" ->
  result <> "Error=InvalidRegistration" ->
  _gcm_send_plain env X data kw w = (Raise (GCMError result), w1).
Proof.
  intros Hreq Herr Hnr Hir.
  rewrite (send_plain_after_request _ _ _ _ _ _ _ Hreq).
  unfold gcm_response. rewrite (error_is_not_id _ Herr), Herr.
  apply String.eqb_neq in Hnr, Hir. by rewrite Hnr, Hir.
Qed.

Lemma other_error_raises_GCMError_witness :
  exists w1,
    _gcm_send_plain (gateway_replying "Error=MismatchSenderId" 1000)
                    "X" 0%nat ∅ sample_world
    = (Raise (GCMError "Error=MismatchSenderId"), w1).
Proof.
  eexists.
  apply (other_error_raises_GCMError
           (gateway_replying "Error=MismatchSenderId" 1000)
           "X" 0%nat ∅ sample_world _ "Error=MismatchSenderId").
  - vm_compute. reflexivity.
  - reflexivity.
  - discriminate.
  - discriminate.
Defined.

Lemma second_line_nth (result line : string) :
  second_line result = Some line ->
  bool_decide (1 < length (split newline result))%nat = true
  /\ nth 1 (split newline result) EmptyString = line.
Proof.
  unfold second_line. destruct (split newline result) as [|l0 [|l1 ls]]; try done.
  by intros [= ->].
Qed.

Lemma second_line_none (result : string) :
  second_line result = None ->
  bool_decide (1 < length (split newline result))%nat = false.
Proof.
  unfold second_line. by destruct (split newline result) as [|l0 [|l1 ls]].
Qed.

(** C6.  The gateway's answer to a send for identifier [X] begins with
    ["id"].  If it has a second line and that line begins with
    ["registration_id"], the reconciliation handler is called once, with
    the text after the last ["="] of that line as the new identifier and
    [X] as the old one; the send then returns the answer.  If there is no
    such second line, the handler is not called and the send returns the
    answer, the world being as the request left it. *)
Theorem canonical_id_dispatch (env : Env) (X : string) (data : loc)
    (kw : pydict) (w w1 : World) (result : string) :
  gcm_request env X data kw w = (Return result, w1) ->
  startswith result "id" = true ->
  (forall line : string,
     second_line result = Some line ->
     startswith line "registration_id" = true ->
     let new_id := last_piece (split equals_sign line) in
     exists w2 request,
       _gcm_handle_canonical_id new_id X w1 = (Return tt, w2)
       /\ _gcm_send_plain env X data kw w = (Return result, w2)
       /\ trace w2 = trace w ++ [EvRequest request; EvCanonical new_id X])
  /\ ((forall line : string,
         second_line result = Some line ->
         startswith line "registration_id" = false) ->
      _gcm_send_plain env X data kw w = (Return result, w1)
      /\ exists request, trace w1 = trace w ++ [EvRequest request]).
Proof.
  intros Hreq Hid.
  destruct (gcm_request_returns _ _ _ _ _ _ _ Hreq) as (request & _ & Htrace).
  rewrite (send_plain_after_request _ _ _ _ _ _ _ Hreq).
  unfold gcm_response. rewrite Hid. split.
  - intros line Hline Hprefix.
    destruct (second_line_nth _ _ Hline) as [-> ->]. rewrite Hprefix.
    cbn [andb]. eexists _, request. split; [apply handle_canonical_id_run|].
    split.
    + unfold mbind, M_bind. by rewrite handle_canonical_id_run.
    + simpl. rewrite Htrace, <- app_assoc. done.
  - intros Hnone. split; [|by exists request].
    destruct (second_line result) as [line|] eqn:Hline.
    + destruct (second_line_nth _ _ Hline) as [-> ->].
      by rewrite (Hnone line eq_refl).
    + by rewrite (second_line_none _ Hline).
Qed.

Lemma canonical_id_dispatch_witness :
  exists w2 request,
    _gcm_handle_canonical_id "456" "X"
      (snd (gcm_request (gateway_replying canonical_response 1000)
                        "X" 0%nat ∅ sample_world))
    = (Return tt, w2)
    /\ _gcm_send_plain (gateway_replying canonical_response 1000)
                       "X" 0%nat ∅ sample_world
       = (Return canonical_response, w2)
    /\ trace w2 = trace sample_world ++ [EvRequest request; EvCanonical "456" "X"].
Proof.
  pose proof (canonical_id_dispatch
                (gateway_replying canonical_response 1000)
                "X" 0%nat ∅ sample_world
                (snd (gcm_request (gateway_replying canonical_response 1000)
                                  "X" 0%nat ∅ sample_world))
                canonical_response) as H.
  destruct H as [Hcall _].
  - vm_compute. reflexivity.
  - reflexivity.
  - apply (Hcall "registration_id=456"); reflexivity.
Defined.

(** ** The payload *)

(** Assigning [str(v)] under every key of the dictionary being visited is
    the same as mapping [str] over its values. *)
Lemma stringify_fold (d acc : pydict) :
  map_fold (fun k v data => <[k := VStr (str v)]> data) acc d
  = ((fun v => VStr (str v)) <$> d) ∪ acc.
Proof.
  apply (map_fold_weak_ind
           (fun r (m : pydict) => r = ((fun v => VStr (str v)) <$> m) ∪ acc)).
  - by rewrite fmap_empty, (left_id_L ∅ (∪)).
  - intros k v m r _ ->. by rewrite fmap_insert, insert_union_l.
Qed.

Lemma stringify_items_fmap (d : pydict) :
  stringify_items d = (fun v => VStr (str v)) <$> d.
Proof.
  unfold stringify_items. rewrite stringify_fold.
  apply map_eq. intros k. rewrite lookup_union, !lookup_fmap.
  by destruct (d !! k).
Qed.

Lemma send_plain_heap (env : Env) (X : string) (data : loc) (kw : pydict)
    (w : World) :
  heap (snd (_gcm_send_plain env X data kw w))
  = <[data := stringify_items (deref (heap w) data)]> (heap w).
Proof.
  pose proof (gcm_request_frame env X data kw w) as [_ Hheap]. simpl in Hheap.
  destruct (gcm_request env X data kw w) as [[result|e] w1] eqn:Hreq.
  - rewrite (send_plain_after_request _ _ _ _ _ _ _ Hreq).
    by rewrite gcm_response_heap.
  - by rewrite (send_plain_request_raises _ _ _ _ _ _ _ Hreq).
Qed.

(** C10.  A send changes the caller's payload object in place: whatever
    the outcome of the send, the object afterwards holds, under each of its
    keys, the string form of the value it held before.  So a payload with a
    value that is not a string does not come back as it went in. *)
Theorem payload_stringified (env : Env) (X : string) (data : loc)
    (kw : pydict) (w : World) (d : pydict) :
  heap w !! data = Some d ->
  let w' := snd (_gcm_send_plain env X data kw w) in
  heap w' !! data = Some ((fun v => VStr (str v)) <$> d)
  /\ (forall k v, d !! k = Some v ->
        exists d', heap w' !! data = Some d' /\ d' !! k = Some (VStr (str v)))
  /\ ((exists k v, d !! k = Some v /\ is_str v = false) ->
      heap w' !! data <> heap w !! data).
Proof.
  intros Hd w'. subst w'. rewrite send_plain_heap, lookup_insert_eq.
  unfold deref. rewrite Hd. simpl. rewrite stringify_items_fmap.
  split; [done|]. split.
  - intros k v Hk. eexists. split; [done|]. by rewrite lookup_fmap, Hk.
  - intros (k & v & Hk & Hv) [= Heq].
    apply (f_equal (fun m : pydict => m !! k)) in Heq.
    rewrite lookup_fmap, Hk in Heq. simpl in Heq.
    injection Heq as Heq. rewrite <- Heq in Hv. discriminate Hv.
Qed.

Lemma payload_stringified_witness :
  let w' := snd (_gcm_send_plain (gateway_replying "id=1" 1000)
                                 "X" 0%nat ∅ sample_world) in
  heap w' !! 0%nat
  = Some ((fun v => VStr (str v))
            <$> ({[ "title" := VInt 5; "message" := VStr "hi" ]} : pydict))
  /\ heap w' !! 0%nat <> heap sample_world !! 0%nat.
Proof.
  destruct (payload_stringified (gateway_replying "id=1" 1000) "X" 0%nat ∅
              sample_world {[ "title" := VInt 5; "message" := VStr "hi" ]}
              eq_refl) as (Hafter & _ & Hchanged).
  split; [exact Hafter|].
  apply Hchanged. exists "title", (VInt 5). split; reflexivity.
Defined.

(** ** The request object *)

Lemma merge_options_lookup (base : gmap string pyobj) (kwargs : pydict)
    (k : string) :
  map_fold
    (fun k v msg_objects =>
       if truthy v then
         let v := if isinstance_bool v then VStr "1" else v in
         <[k := PVal v]> msg_objects
       else msg_objects)
    base kwargs !! k
  = match kwargs !! k with
    | Some v => if truthy v then Some (PVal (merged_value v)) else base !! k
    | None => base !! k
    end.
Proof.
  revert k.
  apply (map_fold_weak_ind
           (fun (r : gmap string pyobj) (m : pydict) =>
              forall k, r !! k = match m !! k with
                                 | Some v => if truthy v
                                             then Some (PVal (merged_value v))
                                             else base !! k
                                 | None => base !! k
                                 end)).
  - intros k. by rewrite lookup_empty.
  - intros i x m r Hfresh IH k.
    destruct (decide (i = k)) as [->|Hne].
    + rewrite lookup_insert_eq. destruct (truthy x).
      * by rewrite lookup_insert_eq.
      * by rewrite IH, Hfresh.
    + rewrite (lookup_insert_ne m) by done. destruct (truthy x).
      * by rewrite lookup_insert_ne.
      * apply IH.
Qed.

(** C8 as stated does not hold: it is not the case that every option is
    merged, a boolean as ["1"] and any other scalar as it is.  The option
    [dry_run=False] leaves no entry in the request object. *)
Lemma every_option_merged_fails :
  ~ (forall (X : string) (data : loc) (d kwargs : pydict) (k : string) (v : pyval),
       kwargs !! k = Some v ->
       make_msg_objects X data d kwargs !! k = Some (PVal (merged_value v))).
Proof.
  intros Hall.
  specialize (Hall "X" 0%nat ∅ {[ "dry_run" := VBool false ]}
                   "dry_run" (VBool false) eq_refl).
  vm_compute in Hall. discriminate Hall.
Qed.

(** C8, amended.  An option whose value is truthy is merged into the
    request object: [True] as the string ["1"], any other truthy scalar
    unchanged.  An option whose value is falsy ([False], [None], [0], the
    empty string) is not merged: the request object holds under its key
    what it would hold had the option not been passed. *)
Theorem truthy_options_merged (X : string) (data : loc) (d kwargs : pydict)
    (k : string) (v : pyval) :
  kwargs !! k = Some v ->
  (truthy v = true -> isinstance_bool v = true ->
     make_msg_objects X data d kwargs !! k = Some (PVal (VStr "1")))
  /\ (truthy v = true -> isinstance_bool v = false ->
        make_msg_objects X data d kwargs !! k = Some (PVal v))
  /\ (truthy v = false ->
        make_msg_objects X data d kwargs !! k
        = make_msg_objects X data d (delete k kwargs) !! k).
Proof.
  intros Hk. unfold make_msg_objects.
  rewrite !merge_options_lookup, Hk, lookup_delete_eq. unfold merged_value.
  repeat split; intros Ht; rewrite Ht; [intros -> | intros -> |]; done.
Qed.

Lemma truthy_options_merged_witness :
  let kwargs : pydict :=
    {[ "dry_run" := VBool true; "time_to_live" := VInt 60;
       "delay_while_idle" := VBool false ]} in
  make_msg_objects "X" 0%nat ∅ kwargs !! "dry_run" = Some (PVal (VStr "1"))
  /\ make_msg_objects "X" 0%nat ∅ kwargs !! "time_to_live" = Some (PVal (VInt 60))
  /\ make_msg_objects "X" 0%nat ∅ kwargs !! "delay_while_idle"
     = make_msg_objects "X" 0%nat ∅ (delete "delay_while_idle" kwargs)
         !! "delay_while_idle".
Proof.
  intros kwargs. split; [|split].
  - apply (truthy_options_merged "X" 0%nat ∅ kwargs "dry_run" (VBool true));
      reflexivity.
  - apply (truthy_options_merged "X" 0%nat ∅ kwargs "time_to_live" (VInt 60));
      reflexivity.
  - apply (truthy_options_merged "X" 0%nat ∅ kwargs "delay_while_idle"
             (VBool false)); reflexivity.
Defined.

(** ** Loops *)

Lemma for_each_app {A : Type} (xs ys : list A) (body : A -> M unit) (w : World) :
  for_each (xs ++ ys) body w =
    match for_each xs body w with
    | (Return _, w') => for_each ys body w'
    | (Raise e, w') => (Raise e, w')
    end.
Proof.
  revert w. induction xs as [|x xs IH]; intros w; [done|].
  simpl. unfold mbind, M_bind.
  destruct (body x w) as [[[]|e] w']; [apply IH | done].
Qed.

(** A loop stops at the first element whose body raises. *)
Lemma for_each_raises {A : Type} (xs ys : list A) (x : A) (body : A -> M unit)
    (w w1 w2 : World) (e : exn) :
  for_each xs body w = (Return tt, w1) ->
  body x w1 = (Raise e, w2) ->
  for_each (xs ++ x :: ys) body w = (Raise e, w2).
Proof.
  intros Hxs Hx. rewrite for_each_app, Hxs. simpl.
  unfold mbind, M_bind. by rewrite Hx.
Qed.

(** ** Bulk dispatch *)

Section Bulk.
Context (env : Env) (data : loc) (kw : pydict).
Implicit Types (ids : list string) (w : World).

Lemma send_json_run ids w :
  _gcm_send_json env ids data kw w =
    match send_each env ids data kw w with
    | (Return _, w') => (Return (PVal VNone), w')
    | (Raise e, w') => (Raise e, w')
    end.
Proof. reflexivity. Qed.

(** Sending chunk after chunk sends to the identifiers of the
    concatenation, one after the other, and gathers one [None] per
    chunk. *)
Lemma collect_chunks (chunks : list (list string)) w :
  collect chunks (fun chunk => _gcm_send_json env chunk data kw) w =
    match send_each env (concat chunks) data kw w with
    | (Return _, w') => (Return (replicate (length chunks) (PVal VNone)), w')
    | (Raise e, w') => (Raise e, w')
    end.
Proof.
  revert w. induction chunks as [|chunk chunks IH]; intros w; [done|].
  cbn [collect concat length replicate].
  unfold send_each in *. rewrite for_each_app.
  unfold mbind at 1. unfold M_bind at 1. rewrite send_json_run.
  unfold send_each.
  destruct (for_each chunk _ w) as [[[]|e] w1]; [|done].
  unfold mbind at 1. unfold M_bind at 1. rewrite IH.
  by destruct (for_each (concat chunks) _ w1) as [[[]|e] w2].
Qed.

(** With a positive maximum, a bulk send sends to the identifiers in
    order, whichever path it takes; the paths differ in the value
    returned. *)
Lemma bulk_send_run ids w :
  0 < GCM_MAX_RECIPIENTS env ->
  gcm_send_bulk_message env ids data kw w =
    match send_each env ids data kw w with
    | (Return _, w') =>
        (Return
           (if GCM_MAX_RECIPIENTS env <? Z.of_nat (length ids)
            then PList (replicate
                          (Z.to_nat (ceil_div (Z.of_nat (length ids))
                                              (GCM_MAX_RECIPIENTS env)))
                          (PVal VNone))
            else PVal VNone),
         w')
    | (Raise e, w') => (Raise e, w')
    end.
Proof.
  intros Hmax. unfold gcm_send_bulk_message.
  destruct (GCM_MAX_RECIPIENTS env <? Z.of_nat (length ids)).
  - destruct (chunks_cover ids _ Hmax) as (cs & Hcs & Hlen & Hcat).
    rewrite Hcs. unfold lift.
    unfold mbind at 1. unfold M_bind at 1.
    unfold mbind at 1. unfold M_bind at 1.
    rewrite collect_chunks, Hcat, <- Hlen, Nat2Z.id.
    by destruct (send_each env ids data kw w) as [[[]|e] w'].
  - apply send_json_run.
Qed.

End Bulk.

(** C9.  In a bulk send with a positive maximum, let the sends to the
    identifiers before [x] return and the send to [x] raise [e], a dispatch
    error or any other exception.  Then the loop over the identifiers ends
    there: the bulk send raises [e], it returns no value, and the world it
    leaves is the one in which the send to [x] raised, so no request went
    out for the identifiers after [x]. *)
Theorem bulk_send_aborts (env : Env) (data : loc) (kw : pydict)
    (before after : list string) (x : string) (w w1 w2 : World) (e : exn) :
  0 < GCM_MAX_RECIPIENTS env ->
  _gcm_send_json env before data kw w = (Return (PVal VNone), w1) ->
  _gcm_send_plain env x data kw w1 = (Raise e, w2) ->
  _gcm_send_json env (before ++ x :: after) data kw w = (Raise e, w2)
  /\ gcm_send_bulk_message env (before ++ x :: after) data kw w = (Raise e, w2).
Proof.
  intros Hmax Hbefore Hx.
  assert (send_each env (before ++ x :: after) data kw w = (Raise e, w2)) as Hloop.
  { unfold send_each. apply for_each_raises with (w1 := w1).
    - rewrite send_json_run in Hbefore. unfold send_each in Hbefore.
      destruct (for_each before _ w) as [[[]|e'] w'] eqn:Hrun; [|done].
      by injection Hbefore as ->.
    - unfold mbind, M_bind. by rewrite Hx. }
  split.
  - by rewrite send_json_run, Hloop.
  - by rewrite bulk_send_run, Hloop.
Qed.

Lemma bulk_send_aborts_witness :
  let env := gateway_failing_after 1 "Error=MismatchSenderId" 2 in
  exists w2,
    gcm_send_bulk_message env (["a"] ++ "b" :: ["c"]) 0%nat ∅ sample_world
    = (Raise (GCMError "Error=MismatchSenderId"), w2)
    /\ length (trace w2) = 2%nat.
Proof.
  intros env.
  exists (snd (_gcm_send_plain env "b" 0%nat ∅
                 (snd (_gcm_send_json env ["a"] 0%nat ∅ sample_world)))).
  split; [|by vm_compute].
  apply (bulk_send_aborts env 0%nat ∅ ["a"] ["c"] "b" sample_world
           (snd (_gcm_send_json env ["a"] 0%nat ∅ sample_world))).
  - reflexivity.
  - by vm_compute.
  - by vm_compute.
Defined.

(** C7.  When the number of identifiers equals the maximum, the bulk send
    does not go through the chunks: it is the one pass of [_gcm_send_json]
    over the whole list.  (Had the list been chunked, with a positive
    maximum, the only chunk would have been the list itself.) *)
Theorem boundary_not_chunked (env : Env) (ids : list string) (data : loc)
    (kw : pydict) (w : World) :
  Z.of_nat (length ids) = GCM_MAX_RECIPIENTS env ->
  gcm_send_bulk_message env ids data kw w = _gcm_send_json env ids data kw w
  /\ (0 < GCM_MAX_RECIPIENTS env ->
      _chunks ids (GCM_MAX_RECIPIENTS env) = Return [ids]).
Proof.
  intros Hlen. split.
  - unfold gcm_send_bulk_message. rewrite <- Hlen, Z.ltb_irrefl. done.
  - intros Hmax. rewrite chunks_positive by done. rewrite <- Hlen.
    assert (ceil_div (Z.of_nat (length ids)) (Z.of_nat (length ids)) = 1) as ->.
    { unfold ceil_div. rewrite Hlen.
      replace (GCM_MAX_RECIPIENTS env + GCM_MAX_RECIPIENTS env - 1)
        with (GCM_MAX_RECIPIENTS env - 1 + 1 * GCM_MAX_RECIPIENTS env) by lia.
      rewrite Z.div_add, Z.div_small; lia. }
    simpl. rewrite Nat2Z.id, drop_0, take_ge; done.
Qed.

Lemma boundary_not_chunked_witness :
  gcm_send_bulk_message (gateway_replying "id=1" 2) ["a"; "b"] 0%nat ∅ sample_world
  = _gcm_send_json (gateway_replying "id=1" 2) ["a"; "b"] 0%nat ∅ sample_world
  /\ _chunks ["a"; "b"]%string 2 = Return [["a"; "b"]]%string.
Proof.
  destruct (boundary_not_chunked (gateway_replying "id=1" 2) ["a"; "b"] 0%nat ∅
              sample_world eq_refl) as [Hdirect Hchunk].
  split; [exact Hdirect|]. apply Hchunk. reflexivity.
Defined.

(** C2, at concrete sends.  Two identifiers, a gateway that answers
    ["id=1"] to every request.  Below the maximum the bulk send returns
    [None]; above it, a list with one [None] per chunk.  In neither case
    does the value hold the response ["id=1"], which a single send through
    [gcm_send_message] does return. *)
Theorem bulk_send_drops_responses :
  fst (gcm_send_bulk_message (gateway_replying "id=1" 1000) ["X"; "Y"] 0%nat ∅
         sample_world) = Return (PVal VNone)
  /\ fst (gcm_send_bulk_message (gateway_replying "id=1" 1) ["X"; "Y"] 0%nat ∅
            sample_world) = Return (PList [PVal VNone; PVal VNone])
  /\ fst (gcm_send_message (gateway_replying "id=1" 1000) "X" 0%nat ∅
            sample_world) = Return "id=1".
Proof. repeat split; by vm_compute. Qed.

(** * Further properties of the module *)

(** ** [_chunks] at its edges *)

Lemma chunks_negative_size {A : Type} (l : list A) (n : Z) :
  n < 0 -> _chunks l n = Return [].
Proof.
  intros Hn. unfold _chunks, range, range_len.
  destruct (Z.eqb_spec n 0) as [|_]; [lia|].
  destruct (Z.ltb_spec 0 n) as [|_]; [lia|].
  destruct (Z.ltb_spec (Z.of_nat (length l)) 0) as [|_]; [lia|].
  reflexivity.
Qed.

(** X1.  A chunk size of zero makes [_chunks] raise [ValueError], for the
    empty list too; a negative chunk size makes it yield no chunk at all,
    whatever the list. *)
Theorem chunks_nonpositive_size {A : Type} (l : list A) (n : Z) :
  (n = 0 -> _chunks l n = Raise (ValueError "range() arg 3 must not be zero"))
  /\ (n < 0 -> _chunks l n = Return []).
Proof.
  split.
  - intros ->. reflexivity.
  - apply chunks_negative_size.
Qed.

Lemma chunks_nonpositive_size_witness :
  _chunks (@nil string) 0 = Raise (ValueError "range() arg 3 must not be zero")
  /\ _chunks ["a"; "b"; "c"]%string (-2) = Return [].
Proof.
  split.
  - apply (chunks_nonpositive_size (@nil string) 0). reflexivity.
  - apply (chunks_nonpositive_size ["a"; "b"; "c"]%string (-2)). reflexivity.
Defined.

Lemma lookup_pieces {A : Type} (l : list A) (m c i : nat) (piece : list A) :
  List.map (fun k => take m (drop (k * m) l)) (seq 0 c) !! i = Some piece ->
  (i < c)%nat /\ piece = take m (drop (i * m) l).
Proof.
  change (List.map ?f ?xs) with (f <$> xs).
  rewrite list_lookup_fmap. intros Hi.
  destruct (seq 0 c !! i) as [k|] eqn:Hk; [|done].
  apply lookup_seq in Hk as [-> Hlt]. simpl in Hi.
  by injection Hi as <-.
Qed.

(** X2.  With a positive chunk size [M], no chunk is empty and every chunk
    but the last holds exactly [M] elements; the chunk at position [i] is
    the slice [l[i*M : i*M + M]]. *)
Theorem chunks_full_but_last {A : Type} (l : list A) (M : Z)
    (cs : list (list A)) :
  0 < M ->
  _chunks l M = Return cs ->
  forall (i : nat) (c : list A),
    cs !! i = Some c ->
    c = slice l (Z.of_nat i * M) (Z.of_nat i * M + M)
    /\ c <> []
    /\ ((i + 1 < length cs)%nat -> Z.of_nat (length c) = M).
Proof.
  intros HM Hcs i c Hi.
  rewrite chunks_positive in Hcs by done. injection Hcs as <-.
  pose proof (ceil_div_bounds (Z.of_nat (length l)) M ltac:(lia) HM) as [Hlow _].
  apply lookup_pieces in Hi as [Hlt ->].
  rewrite length_map, length_seq.
  split; [by rewrite slice_forward by lia; do 2 f_equal; lia|].
  split.
  - intros Hnil. apply (f_equal length) in Hnil.
    rewrite length_take, length_drop in Hnil. simpl in Hnil. nia.
  - intros Hnext. rewrite length_take, length_drop. nia.
Qed.

Lemma chunks_full_but_last_witness :
  ["a"; "b"]%string = slice ["a"; "b"; "c"; "d"; "e"]%string
                          (Z.of_nat 0 * 2) (Z.of_nat 0 * 2 + 2)
  /\ ["a"; "b"]%string <> []
  /\ ((0 + 1 < 3)%nat -> Z.of_nat (length ["a"; "b"]%string) = 2).
Proof.
  apply (chunks_full_but_last ["a"; "b"; "c"; "d"; "e"]%string 2
           [["a"; "b"]; ["c"; "d"]; ["e"]]%string);
    [lia | reflexivity | reflexivity].
Defined.

(** ** Bulk dispatch at its edges *)

(** X3.  With a maximum of zero, a bulk send to a non-empty list raises
    [ValueError] before anything happens: no request goes out and neither
    the payload nor the device table is touched. *)
Theorem bulk_zero_maximum_raises (env : Env) (ids : list string) (data : loc)
    (kw : pydict) (w : World) :
  GCM_MAX_RECIPIENTS env = 0 ->
  ids <> [] ->
  gcm_send_bulk_message env ids data kw w
  = (Raise (ValueError "range() arg 3 must not be zero"), w).
Proof.
  intros Hmax Hids. unfold gcm_send_bulk_message. rewrite Hmax.
  destruct (Z.ltb_spec 0 (Z.of_nat (length ids))) as [_|Hlen].
  - reflexivity.
  - destruct ids; [done | simpl in Hlen; lia].
Qed.

Lemma bulk_zero_maximum_raises_witness :
  gcm_send_bulk_message (gateway_replying "id=1" 0) ["a"; "b"] 0%nat ∅ sample_world
  = (Raise (ValueError "range() arg 3 must not be zero"), sample_world).
Proof.
  apply (bulk_zero_maximum_raises (gateway_replying "id=1" 0) ["a"; "b"] 0%nat ∅
           sample_world); [reflexivity | discriminate].
Defined.

(** X4.  With a negative maximum, a bulk send sends to nobody: it returns
    the empty list and leaves the world as it found it, whatever the
    identifiers. *)
Theorem bulk_negative_maximum_sends_nothing (env : Env) (ids : list string)
    (data : loc) (kw : pydict) (w : World) :
  GCM_MAX_RECIPIENTS env < 0 ->
  gcm_send_bulk_message env ids data kw w = (Return (PList []), w).
Proof.
  intros Hmax. unfold gcm_send_bulk_message.
  destruct (Z.ltb_spec (GCM_MAX_RECIPIENTS env) (Z.of_nat (length ids))) as [_|];
    [|lia].
  by rewrite (chunks_negative_size ids _ Hmax).
Qed.

Lemma bulk_negative_maximum_sends_nothing_witness :
  gcm_send_bulk_message (gateway_replying "id=1" (-1)) ["a"; "b"] 0%nat ∅
    sample_world
  = (Return (PList []), sample_world).
Proof.
  apply (bulk_negative_maximum_sends_nothing (gateway_replying "id=1" (-1))
           ["a"; "b"] 0%nat ∅ sample_world).
  reflexivity.
Defined.

(** X5.  A bulk send to the empty list, the maximum not being negative,
    returns [None] without a request and without touching the payload. *)
Theorem bulk_empty_list (env : Env) (data : loc) (kw : pydict) (w : World) :
  0 <= GCM_MAX_RECIPIENTS env ->
  gcm_send_bulk_message env [] data kw w = (Return (PVal VNone), w).
Proof.
  intros Hmax. unfold gcm_send_bulk_message.
  change (Z.of_nat (length (@nil string))) with 0.
  destruct (Z.ltb_spec (GCM_MAX_RECIPIENTS env) 0) as [|_]; [lia|].
  reflexivity.
Qed.

Lemma bulk_empty_list_witness :
  gcm_send_bulk_message (gateway_replying "id=1" 0) [] 0%nat ∅ sample_world
  = (Return (PVal VNone), sample_world).
Proof.
  apply (bulk_empty_list (gateway_replying "id=1" 0) 0%nat ∅ sample_world).
  discriminate.
Defined.

(** X6.  With a positive maximum, chunking changes nothing in what is
    done: the bulk send leaves the world exactly as one pass of
    [_gcm_send_json] over the whole list leaves it, and it raises exactly
    when that pass raises, with the same exception. *)
Theorem bulk_same_sends_as_one_pass (env : Env) (ids : list string) (data : loc)
    (kw : pydict) (w : World) :
  0 < GCM_MAX_RECIPIENTS env ->
  snd (gcm_send_bulk_message env ids data kw w)
  = snd (_gcm_send_json env ids data kw w)
  /\ (forall e : exn,
        fst (gcm_send_bulk_message env ids data kw w) = Raise e
        <-> fst (_gcm_send_json env ids data kw w) = Raise e).
Proof.
  intros Hmax. rewrite bulk_send_run by done. rewrite send_json_run.
  destruct (send_each env ids data kw w) as [[[]|e'] w']; simpl; [|done].
  split; [done|]. intros e. split; [|done].
  by destruct (_ <? _).
Qed.

Lemma bulk_same_sends_as_one_pass_witness :
  snd (gcm_send_bulk_message (gateway_replying "id=1" 2) ["a"; "b"; "c"] 0%nat ∅
         sample_world)
  = snd (_gcm_send_json (gateway_replying "id=1" 2) ["a"; "b"; "c"] 0%nat ∅
           sample_world).
Proof.
  apply (bulk_same_sends_as_one_pass (gateway_replying "id=1" 2) ["a"; "b"; "c"]
           0%nat ∅ sample_world).
  reflexivity.
Defined.

(** ** Requests issued *)











(** ** The payload across a bulk send *)





(** ** Responses of another shape, and collaborators that fail *)

(** X10.  A response that begins neither with ["id"] nor with ["Error="]
    (the empty response, a JSON document) is handed back as it is: the send
    returns it, calls no handler and leaves the device table as it was. *)
Theorem other_response_returned (env : Env) (X : string) (data : loc)
    (kw : pydict) (w w1 : World) (result : string) :
  gcm_request env X data kw w = (Return result, w1) ->
  startswith result "id" = false ->
  startswith result "Error=" = false ->
  _gcm_send_plain env X data kw w = (Return result, w1)
  /\ devices w1 = devices w
  /\ exists request, trace w1 = trace w ++ [EvRequest request].
Proof.
  intros Hreq Hid Herr.
  rewrite (send_plain_after_request _ _ _ _ _ _ _ Hreq).
  unfold gcm_response. rewrite Hid, Herr. split; [done|]. split.
  - pose proof (gcm_request_frame env X data kw w) as [Hdev _].
    simpl in Hdev. by rewrite Hreq in Hdev.
  - destruct (gcm_request_returns _ _ _ _ _ _ _ Hreq) as (r & _ & Htr). eauto.
Qed.

Lemma other_response_returned_witness :
  exists w1,
    _gcm_send_plain (gateway_replying "{}" 1000) "X" 0%nat ∅ sample_world
    = (Return "{}", w1)
    /\ devices w1 = devices sample_world.
Proof.
  destruct (other_response_returned (gateway_replying "{}" 1000) "X" 0%nat ∅
              sample_world
              (snd (gcm_request (gateway_replying "{}" 1000) "X" 0%nat ∅
                      sample_world))
              "{}") as (Hrun & Hdev & _).
  - by vm_compute.
  - reflexivity.
  - reflexivity.
  - eauto.
Defined.





(** ** More on canonical-id reconciliation *)

(** The table after reconciliation, row by row. *)
Lemma reconciled_devices (N X : string) (w : World) :
  devices (snd (_gcm_handle_canonical_id N X w))
  = (fun dev =>
       if String.eqb (registration_id dev) X then
         if existsb (fun dev => String.eqb (registration_id dev) N
                                && Bool.eqb (active dev) true) (devices w)
         then mkDevice (registration_id dev) false
         else mkDevice N (active dev)
       else dev) <$> devices w.
Proof. by rewrite handle_canonical_id_run. Qed.

Lemma no_active_record (N : string) (table : list GCMDevice) (dev : GCMDevice) :
  existsb (fun dev => String.eqb (registration_id dev) N
                      && Bool.eqb (active dev) true) table = false ->
  dev ∈ table -> registration_id dev = N -> active dev = false.
Proof.
  intros Hno Hin Hid. destruct (active dev) eqn:Hact; [|done].
  assert (active_record_exists N table) as Hex by (by exists dev).
  apply active_record_existsb in Hex. congruence.
Qed.

Lemma old_id_inactive (N X : string) (w : World) :
  ~ active_record_exists X (devices (snd (_gcm_handle_canonical_id N X w))).
Proof.
  rewrite reconciled_devices. intros (dev' & Hin & Hid & Hact).
  apply list_elem_of_fmap in Hin as (dev & -> & Hin).
  destruct (String.eqb_spec (registration_id dev) X) as [Hx|Hx].
  - destruct (existsb _ (devices w)) eqn:Hex; simpl in *; [done|].
    subst N. rewrite (no_active_record _ _ _ Hex Hin Hx) in Hact. done.
  - done.
Qed.

Lemma new_id_active (N X : string) (w : World) :
  N <> X ->
  active_record_exists N (devices (snd (_gcm_handle_canonical_id N X w)))
  <-> active_record_exists N (devices w) \/ active_record_exists X (devices w).
Proof.
  intros Hne. rewrite reconciled_devices. split.
  - intros (dev' & Hin & Hid & Hact).
    apply list_elem_of_fmap in Hin as (dev & -> & Hin).
    destruct (String.eqb_spec (registration_id dev) X) as [Hx|Hx].
    + destruct (existsb _ (devices w)) eqn:Hex; simpl in *; [done|].
      right. by exists dev.
    + left. by exists dev.
  - intros [(dev & Hin & Hid & Hact) | (dev & Hin & Hid & Hact)].
    + exists dev. split; [|done].
      apply list_elem_of_fmap. exists dev. split; [|done].
      destruct (String.eqb_spec (registration_id dev) X); [congruence | done].
    + destruct (existsb (fun dev => String.eqb (registration_id dev) N
                                    && Bool.eqb (active dev) true)
                        (devices w)) eqn:Hex.
      * apply active_record_existsb in Hex as (dev2 & Hin2 & Hid2 & Hact2).
        exists dev2. split; [|done].
        apply list_elem_of_fmap. exists dev2. split; [|done].
        destruct (String.eqb_spec (registration_id dev2) X); [congruence | done].
      * exists (mkDevice N true). split; [|done].
        apply list_elem_of_fmap. exists dev. split; [|done].
        rewrite Hid, String.eqb_refl, Hact. done.
Qed.

(** X13.  After reconciliation the used identifier has no active row left,
    whatever the table and the two identifiers were.  In particular, when
    the gateway names as new the very identifier that was used and its row
    is active, that row is made inactive. *)
Theorem old_id_never_active_after (N X : string) (w : World) :
  ~ active_record_exists X (devices (snd (_gcm_handle_canonical_id N X w)))
  /\ (N = X -> active_record_exists X (devices w) ->
      forall (i : nat) (dev : GCMDevice),
        devices w !! i = Some dev -> registration_id dev = X ->
        devices (snd (_gcm_handle_canonical_id N X w)) !! i
        = Some (mkDevice X false)).
Proof.
  split; [apply old_id_inactive|].
  intros -> Hex%active_record_existsb i dev Hi Hid.
  rewrite reconciled_devices, list_lookup_fmap, Hi, Hex. simpl.
  by rewrite Hid, String.eqb_refl.
Qed.

Lemma old_id_never_active_after_witness :
  devices (snd (_gcm_handle_canonical_id "X" "X" sample_world)) !! 0%nat
  = Some (mkDevice "X" false).
Proof.
  apply (old_id_never_active_after "X" "X" sample_world) with (dev := mkDevice "X" true).
  - reflexivity.
  - exists (mkDevice "X" true). repeat split. apply list_elem_of_here.
  - reflexivity.
  - reflexivity.
Defined.

(** X14.  When the new identifier differs from the used one, the new
    identifier has an active row after reconciliation exactly when, before,
    the new or the used identifier had one: an active device stays
    reachable, under the new identifier. *)
Theorem new_id_active_after (N X : string) (w : World) :
  N <> X ->
  active_record_exists N (devices (snd (_gcm_handle_canonical_id N X w)))
  <-> active_record_exists N (devices w) \/ active_record_exists X (devices w).
Proof. apply new_id_active. Qed.

Lemma new_id_active_after_witness :
  active_record_exists "456"
    (devices (snd (_gcm_handle_canonical_id "456" "X" sample_world))).
Proof.
  apply (new_id_active_after "456" "X" sample_world); [discriminate|].
  right. exists (mkDevice "X" true). repeat split. apply list_elem_of_here.
Defined.

(** X15.  Reconciling a second time with the same two identifiers leaves
    the device table as the first reconciliation left it. *)
Theorem reconciliation_idempotent (N X : string) (w : World) :
  let w1 := snd (_gcm_handle_canonical_id N X w) in
  devices (snd (_gcm_handle_canonical_id N X w1)) = devices w1.
Proof.
  intros w1. rewrite (reconciled_devices N X w1).
  transitivity (id <$> devices w1); [|apply list_fmap_id].
  apply list_fmap_ext. intros i dev1 Hi.
  apply list_elem_of_lookup_2 in Hi as Hin.
  destruct (String.eqb_spec (registration_id dev1) X) as [Hx|Hx]; [|done].
  assert (active dev1 = false) as Hact.
  { destruct (active dev1) eqn:Hact; [|done].
    destruct (old_id_inactive N X w). by exists dev1. }
  assert (mkDevice X false = dev1) as Hrow.
  { destruct dev1; simpl in *. by subst. }
  destruct (existsb _ (devices w1)) eqn:Hex1; simpl.
  { by rewrite Hx. }
  rewrite Hact. destruct (decide (N = X)) as [->|Hne]; [done|].
  exfalso.
  assert (active_record_exists N (devices w)) as Hex.
  { subst w1. rewrite reconciled_devices in Hin.
    apply list_elem_of_fmap in Hin as (dev0 & Heq & Hin0).
    destruct (String.eqb_spec (registration_id dev0) X) as [Hx0|Hx0].
    - destruct (existsb _ (devices w)) eqn:Hex.
      + by apply active_record_existsb.
      + subst dev1. simpl in Hx. done.
    - subst dev1. done. }
  assert (active_record_exists N (devices w1)) as Hex'.
  { apply new_id_active; [done | by left]. }
  apply active_record_existsb in Hex'. congruence.
Qed.

(** ** The new identifier read off the response *)

Lemma split_nonempty (sep : ascii) (s : string) : split sep s <> [].
Proof.
  destruct s as [|c rest]; simpl; [done|].
  destruct (Ascii.eqb c sep); [done|].
  by destruct (split sep rest).
Qed.

Lemma split_without_sep (sep : ascii) (s : string) :
  contains sep s = false -> split sep s = [s].
Proof.
  induction s as [|c rest IH]; simpl; [done|].
  intros [Hc Hrest]%orb_false_iff. rewrite Hc, (IH Hrest). done.
Qed.

Lemma split_app_sep (sep : ascii) (p v : string) :
  split sep (p +:+ String sep v) = split sep p ++ split sep v.
Proof.
  induction p as [|c p IH]; simpl.
  - by rewrite Ascii.eqb_refl.
  - destruct (Ascii.eqb c sep); [by rewrite IH|].
    rewrite IH. pose proof (split_nonempty sep p) as Hne.
    by destruct (split sep p).
Qed.

Lemma last_piece_app (xs ys : list string) :
  ys <> [] -> last_piece (xs ++ ys) = last_piece ys.
Proof.
  intros Hne. unfold last_piece.
  induction xs as [|x xs IH]; [done|].
  simpl. destruct (xs ++ ys) eqn:Happ; [|done].
  apply app_eq_nil in Happ as [_ ->]. done.
Qed.

Lemma last_piece_without_sep (sep : ascii) (s : string) :
  contains sep (last_piece (split sep s)) = false.
Proof.
  induction s as [|c rest IH]; simpl; [done|].
  pose proof (split_nonempty sep rest) as Hne.
  destruct (Ascii.eqb c sep) eqn:Hc.
  - change (EmptyString :: split sep rest) with ([EmptyString] ++ split sep rest).
    by rewrite last_piece_app.
  - destruct (split sep rest) as [|piece [|piece' pieces]]; [done| |].
    + unfold last_piece in *. simpl in *. by rewrite Hc.
    + exact IH.
Qed.

(** X16.  The new identifier is what follows the last ["="] of the second
    line: for a line [prefix=value] whose value holds no ["="] it is the
    value; for a line without any ["="] it is the whole line; and it never
    holds an ["="] itself. *)
Theorem new_id_extraction (prefix value line : string) :
  (contains equals_sign value = false ->
   last_piece (split equals_sign (prefix +:+ String equals_sign value)) = value)
  /\ (contains equals_sign line = false ->
      last_piece (split equals_sign line) = line)
  /\ contains equals_sign (last_piece (split equals_sign line)) = false.
Proof.
  split; [|split].
  - intros Hv. rewrite split_app_sep, last_piece_app by apply split_nonempty.
    by rewrite split_without_sep.
  - intros Hl. by rewrite split_without_sep.
  - apply last_piece_without_sep.
Qed.

Lemma new_id_extraction_witness :
  last_piece (split equals_sign ("registration_id=old" +:+ String equals_sign "456"))
  = "456"
  /\ last_piece (split equals_sign "registration_id") = "registration_id".
Proof.
  split.
  - apply (new_id_extraction "registration_id=old" "456" ""). reflexivity.
  - apply (new_id_extraction "" "" "registration_id"). reflexivity.
Defined.

(** ** The request on the wire *)

Lemma assoc_map {B C : Type} (f : B -> C) (k : string)
    (members : list (string * B)) :
  assoc k (List.map (fun kv => (fst kv, f (snd kv))) members)
  = f <$> assoc k members.
Proof.
  induction members as [|[k' v] members IH]; simpl; [done|].
  by destruct (String.eqb k k').
Qed.

Lemma assoc_list_to_map {B : Type} (k : string) (members : list (string * B)) :
  assoc k members = (list_to_map members : gmap string B) !! k.
Proof.
  induction members as [|[k' v] members IH]; simpl; [done|].
  destruct (String.eqb_spec k k') as [->|Hne].
  - by rewrite lookup_insert_eq.
  - by rewrite lookup_insert_ne.
Qed.

Lemma assoc_map_to_list {B : Type} (k : string) (m : gmap string B) :
  assoc k (map_to_list m) = m !! k.
Proof. by rewrite assoc_list_to_map, list_to_map_to_list. Qed.

(** The response half only adds to the trace. *)
Lemma gcm_response_trace (X result : string) (w : World) :
  exists more, trace (snd (gcm_response X result w)) = trace w ++ more.
Proof.
  unfold gcm_response.
  destruct (startswith result "id").
  - destruct (_ && _).
    + unfold mbind, M_bind. rewrite handle_canonical_id_run. simpl. eauto.
    + exists []. by rewrite app_nil_r.
  - destruct (startswith result "Error=");
      [destruct (_ || _)|]; exists []; by rewrite app_nil_r.
Qed.

(** X17.  When the token and the project id are obtained, a send puts
    exactly this request on the wire, as the first thing it does to the
    trace: the URL names the project, the [Authorization] header carries
    the token, and every truthy option sits at the top of the body under
    its own key.  Unless an option named [message] took its place, the
    [message] member holds the identifier as [token], the payload's
    [title] and [message] as they were before the values were turned into
    strings ([null] when absent), and the payload with every value as a
    string under [data]. *)
Theorem request_on_the_wire (env : Env) (X : string) (data : loc) (kw : pydict)
    (w : World) (token project : string) (d : pydict) :
  refresh_token env (trace w) = Return token ->
  read_project_id env (trace w) = Return project ->
  heap w !! data = Some d ->
  exists request,
    trace (snd (_gcm_send_plain env X data kw w)) !! length (trace w)
    = Some (EvRequest request)
    /\ url request
       = "https://fcm.googleapis.com/v1/projects/" +:+ project +:+ "/messages:send"
    /\ headers request
       = [ ("Content-Type", "application/json; UTF-8");
           ("Authorization", "Bearer " +:+ token) ]
    /\ (forall k v, kw !! k = Some v -> truthy v = true ->
          json_get k (body request) = Some (json_of_val (merged_value v)))
    /\ ((forall v, kw !! "message" = Some v -> truthy v = false) ->
        exists members,
          json_get "message" (body request)
          = Some (JObj [ ("token", JStr X);
                         ("notification",
                           JObj [ ("title", json_of_val (dict_get d "title"));
                                  ("body", json_of_val (dict_get d "message")) ]);
                         ("data", JObj members) ])
          /\ forall k, assoc k members = (fun v => JStr (str v)) <$> d !! k).
Proof.
  intros Htok Hproj Hd.
  set (h1 := <[data := stringify_items d]> (heap w)).
  set (msg := make_msg_objects X data d kw).
  set (request :=
         mkRequest
           ("https://fcm.googleapis.com/v1/projects/" +:+ project +:+ "/messages:send")
           (JObj (List.map (fun kv => (fst kv, dumps_obj h1 (snd kv)))
                           (map_to_list msg)))
           [ ("Content-Type", "application/json; UTF-8");
             ("Authorization", "Bearer " +:+ token) ]).
  assert (gcm_request env X data kw w
          = (urlopen_read env (trace w) request,
             mkWorld (devices w) h1 (trace w ++ [EvRequest request]))) as Hreq.
  { unfold gcm_request, load, store, json_dumps, _gcm_send, _get_access_token,
      load_credentials_project_id, urlopen.
    unfold mbind, M_bind. simpl. rewrite Htok, Hproj. simpl.
    unfold deref. rewrite Hd. reflexivity. }
  exists request. split; [|split; [done|split; [done|split]]].
  - destruct (urlopen_read env (trace w) request) as [result|e].
    + rewrite (send_plain_after_request _ _ _ _ _ _ _ Hreq).
      destruct (gcm_response_trace X result
                  (mkWorld (devices w) h1 (trace w ++ [EvRequest request])))
        as [more ->].
      simpl. rewrite <- app_assoc. apply list_lookup_middle. done.
    + rewrite (send_plain_request_raises _ _ _ _ _ _ _ Hreq). simpl.
      apply list_lookup_middle. done.
  - intros k v Hk Hv. simpl.
    rewrite assoc_map, assoc_map_to_list. subst msg. unfold make_msg_objects.
    rewrite merge_options_lookup, Hk, Hv. done.
  - intros Hmsg. eexists. split.
    + simpl. rewrite assoc_map, assoc_map_to_list. subst msg.
      unfold make_msg_objects. rewrite merge_options_lookup.
      destruct (kw !! "message") as [v|] eqn:Hk.
      * rewrite (Hmsg v eq_refl). rewrite lookup_singleton_eq. simpl. reflexivity.
      * rewrite lookup_singleton_eq. simpl. reflexivity.
    + intros k. rewrite assoc_map, assoc_map_to_list.
      subst h1. unfold deref. rewrite lookup_insert_eq. simpl.
      rewrite stringify_items_fmap, lookup_fmap.
      by destruct (d !! k).
Qed.

Lemma request_on_the_wire_witness :
  exists request,
    trace (snd (_gcm_send_plain (gateway_replying "id=1" 1000) "X" 0%nat
                  {[ "dry_run" := VBool true ]} sample_world))
      !! length (trace sample_world)
    = Some (EvRequest request)
    /\ url request = "https://fcm.googleapis.com/v1/projects/project/messages:send"
    /\ json_get "dry_run" (body request) = Some (JStr "1").
Proof.
  destruct (request_on_the_wire (gateway_replying "id=1" 1000) "X" 0%nat
              {[ "dry_run" := VBool true ]} sample_world "token" "project"
              {[ "title" := VInt 5; "message" := VStr "hi" ]}
              eq_refl eq_refl eq_refl)
    as (request & Htrace & Hurl & _ & Hopt & _).
  exists request. split; [exact Htrace|]. split; [exact Hurl|].
  apply (Hopt "dry_run" (VBool true)); reflexivity.
Defined.

(** ** Sends and the device table *)

(** X18.  After a send for identifier [X] whose response begins with
    ["id"] and carries a second line beginning with ["registration_id"],
    [X] has no active row in the device table, whatever the new identifier
    is and whatever the table held. *)
Theorem canonical_response_retires_old_id (env : Env) (X : string) (data : loc)
    (kw : pydict) (w w1 : World) (result line : string) :
  gcm_request env X data kw w = (Return result, w1) ->
  startswith result "id" = true ->
  second_line result = Some line ->
  startswith line "registration_id" = true ->
  fst (_gcm_send_plain env X data kw w) = Return result
  /\ ~ active_record_exists X (devices (snd (_gcm_send_plain env X data kw w))).
Proof.
  intros Hreq Hid Hline Hprefix.
  rewrite (send_plain_after_request _ _ _ _ _ _ _ Hreq).
  unfold gcm_response. rewrite Hid.
  destruct (second_line_nth _ _ Hline) as [-> ->]. rewrite Hprefix.
  cbn [andb]. unfold mbind, M_bind.
  pose proof (old_id_inactive (last_piece (split equals_sign line)) X w1) as Hold.
  destruct (_gcm_handle_canonical_id _ X w1) as [[[]|e] w2] eqn:Hrun.
  - done.
  - rewrite handle_canonical_id_run in Hrun. discriminate Hrun.
Qed.

Lemma canonical_response_retires_old_id_witness :
  ~ active_record_exists "X"
      (devices (snd (_gcm_send_plain (gateway_replying canonical_response 1000)
                       "X" 0%nat ∅ sample_world))).
Proof.
  apply (canonical_response_retires_old_id
           (gateway_replying canonical_response 1000) "X" 0%nat ∅ sample_world
           (snd (gcm_request (gateway_replying canonical_response 1000)
                   "X" 0%nat ∅ sample_world))
           canonical_response "registration_id=456").
  - by vm_compute.
  - reflexivity.
  - reflexivity.
  - reflexivity.
Defined.

Lemma gcm_response_rows (X result : string) (w : World) :
  length (devices (snd (gcm_response X result w))) = length (devices w).
Proof.
  unfold gcm_response.
  destruct (startswith result "id").
  - destruct (_ && _); [|done].
    unfold mbind, M_bind. rewrite handle_canonical_id_run. simpl.
    apply length_fmap.
  - destruct (startswith result "Error="); [|done].
    by destruct (_ || _).
Qed.

Lemma send_plain_rows (env : Env) (X : string) (data : loc) (kw : pydict)
    (w : World) :
  length (devices (snd (_gcm_send_plain env X data kw w))) = length (devices w).
Proof.
  pose proof (gcm_request_frame env X data kw w) as [Hdev _]. simpl in Hdev.
  destruct (gcm_request env X data kw w) as [[result|e] w1] eqn:Hreq.
  - rewrite (send_plain_after_request _ _ _ _ _ _ _ Hreq).
    rewrite gcm_response_rows. simpl in Hdev. by rewrite Hdev.
  - rewrite (send_plain_request_raises _ _ _ _ _ _ _ Hreq).
    simpl in *. by rewrite Hdev.
Qed.

Lemma send_each_rows (env : Env) (ids : list string) (data : loc) (kw : pydict)
    (w : World) :
  length (devices (snd (send_each env ids data kw w))) = length (devices w).
Proof.
  unfold send_each. revert w.
  induction ids as [|x ids IH]; intros w; [done|].
  simpl. unfold mbind at 1. unfold M_bind at 1.
  unfold mbind at 1. unfold M_bind at 1.
  pose proof (send_plain_rows env x data kw w) as Hfirst.
  destruct (_gcm_send_plain env x data kw w) as [[result|e] w1]; simpl in *;
    [|done].
  by rewrite IH.
Qed.

(** X19.  Dispatch never adds a row to the device table and never removes
    one: after a single send and after a bulk send, whatever the
    responses, the outcome and the configured maximum, the table has as
    many rows as before. *)
Theorem dispatch_keeps_row_count (env : Env) (X : string) (ids : list string)
    (data : loc) (kw : pydict) (w : World) :
  length (devices (snd (gcm_send_message env X data kw w))) = length (devices w)
  /\ length (devices (snd (gcm_send_bulk_message env ids data kw w)))
     = length (devices w).
Proof.
  split; [apply send_plain_rows|].
  destruct (Z.lt_trichotomy (GCM_MAX_RECIPIENTS env) 0) as [Hneg | [Hzero | Hpos]].
  - unfold gcm_send_bulk_message.
    destruct (_ <? _).
    + by rewrite (chunks_negative_size ids _ Hneg).
    + rewrite send_json_run.
      pose proof (send_each_rows env ids data kw w) as Hrows.
      by destruct (send_each env ids data kw w) as [[[]|e] w'].
  - unfold gcm_send_bulk_message. rewrite Hzero.
    destruct (_ <? _); [done|].
    rewrite send_json_run.
    pose proof (send_each_rows env ids data kw w) as Hrows.
    by destruct (send_each env ids data kw w) as [[[]|e] w'].
  - rewrite bulk_send_run by done.
    pose proof (send_each_rows env ids data kw w) as Hrows.
    by destruct (send_each env ids data kw w) as [[[]|e] w'].
Qed.
